(** * DyslexiAssist: the EasyOCR image recognition service

    A shallow embedding of [src/services/image_recognition_easyocr.py]:
    the class [ImageRecognitionService] (constructor, [detect_document],
    [detect_document_with_confidence], [is_supported_format]) and the
    module-level function [detect_document].

    The EasyOCR library is not part of the repository.  It is modelled as an
    interface ([EasyOCR]) whose operations are arbitrary: they may return,
    raise, write to [sys.stdout] and change the outside world. *)

From Stdlib Require Import List String Ascii Bool Arith ZArith QArith Lia.
From Stdlib Require Import Qround Qabs Qpower Lqa.
Import ListNotations.
Close Scope Q_scope.
Open Scope nat_scope.
Open Scope string_scope.

(** ** Binary64 arithmetic, as Python's [float] has it

    A finite value is the rational it denotes; the two zeros are one value,
    as [==] has them.  Every operation computes the exact result and rounds
    it to the nearest binary64 value, ties to the even significand, with
    gradual underflow and overflow to infinity.  The operations accept any
    rational operand, so they cover every binary64 operand, and what they
    return is a binary64 value. *)

Module Float64.

Inductive float : Type :=
| Finite (q : Q)
| Infinity (negative : bool)
| NaN.

Definition pow2 (e : Z) : Q := Qpower 2 e.

(** The integer part of the binary logarithm of [a > 0]. *)
Definition ilog2 (a : Q) : Z :=
  let d := (Z.log2 (Qnum a) - Z.log2 (Zpos (Qden a)))%Z in
  if Qle_bool (pow2 d) a then d else (d - 1)%Z.

(** The exponent of the last place of [a > 0]: 53 significant bits, and
    nothing finer than [2^-1074]. *)
Definition expo (a : Q) : Z := Z.max (ilog2 a - 52) (-1074).

(** The nearest integer, a tie going to the even one. *)
Definition rne (t : Q) : Z :=
  let f := Qfloor t in
  match Qcompare (t - inject_Z f) (1 # 2) with
  | Lt => f
  | Gt => (f + 1)%Z
  | Eq => if Z.even f then f else (f + 1)%Z
  end.

(** The nearest multiple of the last place. *)
Definition rnd (x : Q) : Q :=
  let e := expo (Qabs x) in
  Qred (inject_Z (rne (x / pow2 e)) * pow2 e).

(** Rounding of an exact result. *)
Definition round (x : Q) : float :=
  let r := rnd x in
  if Qle_bool (pow2 1024) (Qabs r)
  then Infinity (negb (Qle_bool 0 x))
  else Finite r.

(** [x + y]. *)
Definition fadd (x y : float) : float :=
  match x, y with
  | NaN, _ | _, NaN => NaN
  | Infinity a, Infinity b => if Bool.eqb a b then Infinity a else NaN
  | Infinity a, Finite _ | Finite _, Infinity a => Infinity a
  | Finite p, Finite q => round (p + q)
  end.

(** [x / y] as IEEE 754 defines it.  The code divides by the length of a
    non-empty list only, so the case of a zero divisor is never reached. *)
Definition fdiv (x y : float) : float :=
  match x, y with
  | NaN, _ | _, NaN => NaN
  | Infinity _, Infinity _ => NaN
  | Infinity a, Finite q => Infinity (xorb a (negb (Qle_bool 0 q)))
  | Finite _, Infinity _ => Finite 0
  | Finite p, Finite q =>
      if Qeq_bool q 0
      then if Qeq_bool p 0 then NaN else Infinity (negb (Qle_bool 0 p))
      else round (p / q)
  end.

(** The conversion of an [int] to [float]. *)
Definition of_int (n : Z) : float := round (inject_Z n).

End Float64.
Import Float64.

(** ** Python values and builtins used by the module *)

Module Python.

(** An exception object, an instance of [Exception] as [except Exception]
    catches it; [str e] is what an f-string interpolates. *)
Inductive exn : Type :=
| Exception (msg : string).

Definition str (e : exn) : string :=
  match e with Exception msg => msg end.

(** The outcome of evaluating a call: a value, or a raised exception. *)
Inductive pyresult (A : Type) : Type :=
| Returns (a : A)
| Raises (e : exn).
Arguments Returns {A} a.
Arguments Raises {A} e.

(** Truth value of a list: [not result] is [negb (truthy result)]. *)
Definition truthy {A : Type} (l : list A) : bool :=
  match l with
  | [] => false
  | _ :: _ => true
  end.

(** [sep.join(items)]. *)
Definition join (sep : string) (items : list string) : string :=
  String.concat sep items.

(** [len(l)], as the division converts it. *)
Definition len {A : Type} (l : list A) : float :=
  of_int (Z.of_nat (List.length l)).

(** [sum(l)]: starts from [0] and adds from the left, each addition
    rounded. *)
Definition sum (l : list float) : float :=
  fold_left fadd l (of_int 0).

(** [c.lower()] on one character; only ASCII capitals change.  A path is a
    string of bytes, and no byte above 127 can become part of an ASCII
    suffix. *)
Definition lower_ascii (c : ascii) : ascii :=
  let n := nat_of_ascii c in
  if ((65 <=? n)%nat && (n <=? 90)%nat)%bool then ascii_of_nat (n + 32) else c.

(** [s.lower()]. *)
Fixpoint lower (s : string) : string :=
  match s with
  | EmptyString => EmptyString
  | String c s' => String (lower_ascii c) (lower s')
  end.

(** [s.endswith(suffix)]: compare the last [len(suffix)] characters. *)
Definition endswith (s suffix : string) : bool :=
  let n := String.length s in
  let m := String.length suffix in
  if (m <=? n)%nat then String.eqb (substring (n - m) m s) suffix else false.

(** [any(f(x) for x in xs)]. *)
Definition any {A : Type} (f : A -> bool) (xs : list A) : bool :=
  existsb f xs.

(** The line terminator that [print] appends. *)
Definition newline : string := String (ascii_of_nat 10) EmptyString.

End Python.
Import Python.

(** ** The EasyOCR interface *)

(** A bounding box: four corner points. *)
Definition BBox : Type := list (Q * Q).

(** One entry of [readtext(path, detail=1)]: [(bbox, text, confidence)].
    The confidence is a float. *)
Definition Detection : Type := (BBox * string * float)%type.

(** What an engine call does: its outcome, what it wrote to [sys.stdout],
    and the world it leaves behind. *)
Definition effect (World A : Type) : Type :=
  World -> pyresult A * string * World.

Record EasyOCR : Type := {
  (** everything outside the program: files, model cache, network *)
  World : Type;
  (** an [easyocr.Reader] object *)
  Reader : Type;
  (** [easyocr.Reader(lang_list)] *)
  Reader_new : list string -> effect World Reader;
  (** [reader.readtext(path, detail=0)]: the recognised strings *)
  readtext_detail0 : Reader -> string -> effect World (list string);
  (** [reader.readtext(path, detail=1)]: boxes, strings and confidences *)
  readtext_detail1 : Reader -> string -> effect World (list Detection)
}.

(** ** Effects of the program: a state and exception monad *)

Section Effects.

Variable ocr : EasyOCR.

(** The interpreter state outside any object: the text received by the
    stream currently bound to [sys.stdout], and the world. *)
Record Env : Type := {
  stdout : string;
  world : World ocr
}.

Definition M (S A : Type) : Type := S -> pyresult A * S.

Definition ret {S A : Type} (a : A) : M S A :=
  fun s => (Returns a, s).

Definition bind {S A B : Type} (m : M S A) (k : A -> M S B) : M S B :=
  fun s =>
    match m s with
    | (Returns a, s') => k a s'
    | (Raises e, s') => (Raises e, s')
    end.

(** [try: body  except Exception as e: handler e]. *)
Definition try_except {S A : Type} (body : M S A) (handler : exn -> M S A)
  : M S A :=
  fun s =>
    match body s with
    | (Returns a, s') => (Returns a, s')
    | (Raises e, s') => handler e s'
    end.

(** A call into the engine. *)
Definition engine {A : Type} (f : effect (World ocr) A) : M Env A :=
  fun e =>
    let '(r, out, w) := f (world e) in
    (r, {| stdout := stdout e ++ out; world := w |}).

(** [print(s)]. *)
Definition print (s : string) : M Env unit :=
  fun e => (Returns tt, {| stdout := stdout e ++ s ++ newline;
                           world := world e |}).

(** [output.getvalue()] while [output] is the redirection target. *)
Definition getvalue : M Env string :=
  fun e => (Returns (stdout e), e).

(** [output = io.StringIO()] followed by
    [with contextlib.redirect_stdout(output): body]: the body writes to a
    fresh buffer, and [sys.stdout] is restored however the body ends. *)
Definition redirect_stdout {A : Type} (body : M Env A) : M Env A :=
  fun e =>
    let '(r, e') := body {| stdout := EmptyString; world := world e |} in
    (r, {| stdout := stdout e; world := world e' |}).

End Effects.

Arguments stdout {ocr} _.
Arguments world {ocr} _.
Arguments engine {ocr A} f.
Arguments print {ocr} s.
Arguments getvalue {ocr}.
Arguments redirect_stdout {ocr A} body.

Notation "x <- m ;; k" := (bind m (fun x => k))
  (at level 61, m at next level, right associativity).
Notation "m ;;; k" := (bind m (fun _ => k))
  (at level 61, right associativity).

(** ** class ImageRecognitionService *)

Module ImageRecognitionService.
Section Class.

Variable ocr : EasyOCR.

(** The attributes of an instance. *)
Record Service : Type := {
  languages : list string;
  reader : Reader ocr
}.

(** A method runs against its instance and the environment. *)
Record Obj : Type := {
  self : Service;
  env : Env ocr
}.

(** Run a computation that has no access to [self]. *)
Definition outside {A : Type} (m : M (Env ocr) A) : M Obj A :=
  fun o =>
    let '(r, e) := m (env o) in
    (r, {| self := self o; env := e |}).

(** [self.reader]. *)
Definition self_reader : M Obj (Reader ocr) :=
  fun o => (Returns (reader (self o)), o).

(** [__init__(self, languages=None)]. *)
Definition init (langs : option (list string)) : M (Env ocr) Service :=
  let self_languages :=
    match langs with
    | Some l => if truthy l then l else ["en"]
    | None => ["en"]
    end in
  r <- engine (Reader_new ocr self_languages) ;;
  ret {| languages := self_languages; reader := r |}.

(** [detect_document(self, path)]. *)
Definition detect_document (path : string)
  : M Obj (string * option string) :=
  try_except
    (rd <- self_reader ;;
     result <- outside (engine (readtext_detail0 ocr rd path)) ;;
     if negb (truthy result)
     then ret ("", Some "No text detected in the image")
     else
       let extracted_text := join " " result in
       ret (extracted_text, None))
    (fun e => ret ("", Some ("Error processing image: " ++ str e))).

(** [detect_document_with_confidence(self, path)]. *)
Definition detect_document_with_confidence (path : string)
  : M Obj (string * float * option string) :=
  try_except
    (rd <- self_reader ;;
     result <- outside (engine (readtext_detail1 ocr rd path)) ;;
     if negb (truthy result)
     then ret ("", Finite 0, Some "No text detected in the image")
     else
       let extracted_text :=
         join " " (map (fun '(_, text, _) => text) result) in
       let confidences := map (fun '(_, _, conf) => conf) result in
       let average_confidence :=
         if truthy confidences
         then fdiv (sum confidences) (len confidences)
         else Finite 0 in
       ret (extracted_text, average_confidence, None))
    (fun e => ret ("", Finite 0, Some ("Error processing image: " ++ str e))).

Definition supported_formats : list string :=
  [".jpg"; ".jpeg"; ".png"; ".gif"; ".bmp"; ".webp"; ".ico"].

(** [is_supported_format(self, file_path)]. *)
Definition is_supported_format (file_path : string) : M Obj bool :=
  ret (any (fun fmt => endswith (lower file_path) fmt) supported_formats).

End Class.

Arguments languages {ocr} _.
Arguments reader {ocr} _.
Arguments self {ocr} _.
Arguments env {ocr} _.

End ImageRecognitionService.

(** ** The module-level function *)

Section ModuleLevel.

Variable ocr : EasyOCR.

(** [detect_document(path)].  The two [return output.getvalue()] leave
    the function from inside the [with] block; the final
    [return extracted_text] is reached on the remaining path only. *)
Definition detect_document (path : string) : M (Env ocr) string :=
  redirect_stdout
    (rd <- engine (Reader_new ocr ["en"]) ;;
     try_except
       (result <- engine (readtext_detail0 ocr rd path) ;;
        if negb (truthy result)
        then print "No text detected in the image" ;;; getvalue
        else
          let extracted_text := join " " result in
          print extracted_text ;;; ret extracted_text)
       (fun e => print ("Error processing image: " ++ str e) ;;; getvalue)).

End ModuleLevel.

(** ** Callers *)

Section Callers.

Variable ocr : EasyOCR.

Import ImageRecognitionService.

(** A call of one of the public methods of an instance. *)
Inductive call : Type :=
| Call_detect_document (path : string)
| Call_detect_document_with_confidence (path : string)
| Call_is_supported_format (file_path : string).

(** The instance and environment after one call, whatever it answered. *)
Definition after_call (o : Obj ocr) (c : call) : Obj ocr :=
  match c with
  | Call_detect_document path =>
      snd (ImageRecognitionService.detect_document ocr path o)
  | Call_detect_document_with_confidence path =>
      snd (detect_document_with_confidence ocr path o)
  | Call_is_supported_format file_path =>
      snd (is_supported_format ocr file_path o)
  end.

(** The instance and environment after a sequence of calls. *)
Definition after_calls (cs : list call) (o : Obj ocr) : Obj ocr :=
  fold_left after_call cs o.

End Callers.

(** ** Vocabulary of the specification *)

(** The arithmetic mean of the spec: the total of the scores over their
    number. *)
Definition arithmetic_mean (scores : list Q) : Q :=
  (fold_right Qplus 0 scores / inject_Z (Z.of_nat (List.length scores)))%Q.

(** [s] contains [part]. *)
Definition contains (s part : string) : Prop :=
  exists before after, s = before ++ part ++ after.

(** [s] ends with [suffix]. *)
Definition has_suffix (s suffix : string) : Prop :=
  exists before, s = before ++ suffix.

(** A score is a probability. *)
Definition in_unit_interval (x : float) : Prop :=
  match x with
  | Finite q => (0 <= q)%Q /\ (q <= 1)%Q
  | _ => False
  end.

(** [q] is a binary64 value. *)
Definition is_double (q : Q) : Prop :=
  exists m e : Z,
    (q == inject_Z m * pow2 e)%Q
    /\ (Z.abs m < 2 ^ 53)%Z /\ (-1074 <= e <= 971)%Z.

(** The mean as binary64 arithmetic gives it: the scores are added one
    after the other to a total that starts at zero, each addition rounded,
    and the total is divided by their number, rounded again. *)
Fixpoint running_total (total : float) (scores : list float) : float :=
  match scores with
  | [] => total
  | score :: rest => running_total (fadd total score) rest
  end.

Definition binary64_mean (scores : list float) : float :=
  fdiv (running_total (Finite 0) scores)
       (of_int (Z.of_nat (List.length scores))).

(** ** Sample engines *)

Module Samples.

Import ImageRecognitionService.

(** An engine with scripted answers.  Its world counts the calls made;
    construction writes [banner] to [sys.stdout]. *)
Definition scripted (ctor : pyresult unit) (banner : string)
  (lines : pyresult (list string)) (detections : pyresult (list Detection))
  : EasyOCR :=
  {| World := nat;
     Reader := unit;
     Reader_new := fun _ w => (ctor, banner, S w);
     readtext_detail0 := fun _ _ w => (lines, EmptyString, S w);
     readtext_detail1 := fun _ _ w => (detections, EmptyString, S w) |}.

Definition box : BBox :=
  [(0#1, 0#1); (40#1, 0#1); (40#1, 12#1); (0#1, 12#1)]%Q.

(** A page with two recognised lines. *)
Definition two_lines : EasyOCR :=
  scripted (Returns tt) ""
    (Returns ["Hello"; "world"])
    (Returns [(box, "Hello", Finite (1#2)); (box, "world", Finite 1)]).

(** A page on which nothing is detected. *)
Definition blank_page : EasyOCR :=
  scripted (Returns tt) "" (Returns []) (Returns []).

(** A file the engine cannot read. *)
Definition unreadable : EasyOCR :=
  scripted (Returns tt) ""
    (Raises (Exception "cannot open file"))
    (Raises (Exception "cannot open file")).

(** An installation whose model cannot be loaded. *)
Definition no_model : EasyOCR :=
  scripted (Raises (Exception "model download failed")) ""
    (Returns []) (Returns []).

(** One detected region whose recognised text is empty. *)
Definition one_empty_line : EasyOCR :=
  scripted (Returns tt) ""
    (Returns [""])
    (Returns [(box, "", Finite (1#4))]).

(** The doubles written [0.1], [0.2] and [0.3]. *)
Definition double_0_1 : Q := 3602879701896397 # 36028797018963968.
Definition double_0_2 : Q := 3602879701896397 # 18014398509481984.
Definition double_0_3 : Q := 5404319552844595 # 18014398509481984.

(** A page with three regions scored 0.1, 0.2 and 0.3. *)
Definition three_scores : EasyOCR :=
  scripted (Returns tt) ""
    (Returns ["a"; "b"; "c"])
    (Returns [(box, "a", Finite double_0_1); (box, "b", Finite double_0_2);
              (box, "c", Finite double_0_3)]).

(** A first run: the model download reports its progress on
    [sys.stdout]; the page is blank. *)
Definition first_run : EasyOCR :=
  scripted (Returns tt) "Progress: 100.0% Complete" (Returns []) (Returns []).

(** The starting environment of a scripted engine. *)
Definition start (ctor : pyresult unit) (banner : string)
  (lines : pyresult (list string)) (detections : pyresult (list Detection))
  : Env (scripted ctor banner lines detections) :=
  Build_Env (scripted ctor banner lines detections) "" 0.

(** An instance of the service over a scripted engine. *)
Definition instance (ctor : pyresult unit) (banner : string)
  (lines : pyresult (list string)) (detections : pyresult (list Detection))
  : Obj (scripted ctor banner lines detections) :=
  Build_Obj (scripted ctor banner lines detections)
    (Build_Service (scripted ctor banner lines detections) ["en"] tt)
    (start ctor banner lines detections).

End Samples.

(** ** Using the class *)

Section Usage.

Variable ocr : EasyOCR.

(** Call a method on the instance [svc]. *)
Definition on_instance {A : Type} (svc : ImageRecognitionService.Service ocr)
  (method : M (ImageRecognitionService.Obj ocr) A) : M (Env ocr) A :=
  fun e =>
    let '(r, o) :=
      method (ImageRecognitionService.Build_Obj ocr svc e) in
    (r, ImageRecognitionService.env o).

(** [ImageRecognitionService(languages).detect_document(path)]. *)
Definition construct_and_detect (langs : option (list string))
  (path : string) : M (Env ocr) (string * option string) :=
  svc <- ImageRecognitionService.init ocr langs ;;
  on_instance svc (ImageRecognitionService.detect_document ocr path).

End Usage.

(** An engine that writes nothing to [sys.stdout] when it reads an image. *)
Definition quiet_readtext (ocr : EasyOCR) : Prop :=
  (forall rd path w, snd (fst (readtext_detail0 ocr rd path w)) = "")
  /\ (forall rd path w, snd (fst (readtext_detail1 ocr rd path w)) = "").

(** The text column of a [detail=1] answer, as [detail=0] gives it. *)
Definition texts_of (r : pyresult (list Detection))
  : pyresult (list string) :=
  match r with
  | Returns detections => Returns (map (fun d => snd (fst d)) detections)
  | Raises exc => Raises exc
  end.

(** * Properties *)

Import ImageRecognitionService(Service, Obj, Build_Service, Build_Obj, self,
  env, languages, reader, init, detect_document_with_confidence,
  is_supported_format, supported_formats).

(** ** Strings *)

Lemma length_append (s t : string) :
  String.length (s ++ t) = String.length s + String.length t.
Proof.
  induction s as [|c s IH]; simpl; [reflexivity | now rewrite IH].
Qed.

Lemma append_empty_r (s : string) : s ++ "" = s.
Proof.
  induction s as [|c s IH]; simpl; [reflexivity | now rewrite IH].
Qed.

Lemma append_assoc (s t u : string) : (s ++ t) ++ u = s ++ t ++ u.
Proof.
  induction s as [|c s IH]; simpl; [reflexivity | now rewrite IH].
Qed.

Lemma append_eq_empty (s t : string) : s ++ t = "" -> s = "" /\ t = "".
Proof.
  destruct s; simpl; [auto | discriminate].
Qed.

Lemma substring_whole (s : string) : substring 0 (String.length s) s = s.
Proof.
  induction s as [|c s IH]; simpl; [reflexivity | now rewrite IH].
Qed.

Lemma substring_skip (pre s : string) (m : nat) :
  substring (String.length pre) m (pre ++ s) = substring 0 m s.
Proof.
  induction pre as [|c pre IH]; simpl; [reflexivity | exact IH].
Qed.

(** The characters from position [n] on form a suffix. *)
Lemma substring_tail (s : string) (n : nat) :
  n <= String.length s ->
  has_suffix s (substring n (String.length s - n) s).
Proof.
  revert n; induction s as [|c s IH]; intros n Hn.
  - exists ""; destruct n; reflexivity.
  - destruct n as [|n].
    + exists ""; simpl; now rewrite substring_whole.
    + simpl in Hn; apply le_S_n in Hn.
      destruct (IH n Hn) as [pre Hpre].
      exists (String c pre); simpl; now rewrite <- Hpre.
Qed.

(** [endswith] decides the suffix relation. *)
Lemma endswith_spec (s suffix : string) :
  endswith s suffix = true <-> has_suffix s suffix.
Proof.
  unfold endswith; split.
  - destruct (Nat.leb_spec (String.length suffix) (String.length s)) as [Hle|Hlt];
      [|discriminate].
    intros Heq; apply String.eqb_eq in Heq.
    assert (Hn : String.length s - String.length suffix <= String.length s)
      by lia.
    pose proof (substring_tail s _ Hn) as Htail.
    replace (String.length s - (String.length s - String.length suffix))
      with (String.length suffix) in Htail by lia.
    now rewrite Heq in Htail.
  - intros [pre ->].
    rewrite length_append.
    replace (String.length suffix <=? String.length pre + String.length suffix)%nat
      with true by (symmetry; apply Nat.leb_le; lia).
    replace (String.length pre + String.length suffix - String.length suffix)
      with (String.length pre) by lia.
    rewrite substring_skip, substring_whole.
    apply String.eqb_refl.
Qed.

Lemma join_cons (sep x y : string) (l : list string) :
  join sep (x :: y :: l) = x ++ sep ++ join sep (y :: l).
Proof. reflexivity. Qed.

(** Joining with spaces gives the empty string only for no item, or for
    one empty item. *)
Lemma join_space_empty (l : list string) :
  join " " l = "" <-> l = [] \/ l = [""].
Proof.
  split.
  - destruct l as [|x [|y l]]; simpl; intros H.
    + now left.
    + right; now subst.
    + apply append_eq_empty in H; destruct H as [_ H]; discriminate.
  - intros [-> | ->]; reflexivity.
Qed.

(** ** Binary64 rounding *)

Section Rounding.

Local Open Scope Q_scope.

Lemma pow2_pos (e : Z) : 0 < pow2 e.
Proof. apply Qpower_0_lt. reflexivity. Qed.

Lemma pow2_add (a b : Z) : pow2 (a + b) == pow2 a * pow2 b.
Proof. apply Qpower_plus. discriminate. Qed.

Lemma pow2_le (a b : Z) : (a <= b)%Z -> pow2 a <= pow2 b.
Proof. intros H. apply Qpower_le_compat_l; [exact H | discriminate]. Qed.

Lemma pow2_lt_inv (a b : Z) : pow2 a < pow2 b -> (a < b)%Z.
Proof. intros H. apply (Qpower_lt_compat_l_inv 2); [exact H | reflexivity]. Qed.

Lemma pow2_Z (e : Z) : (0 <= e)%Z -> pow2 e == inject_Z (2 ^ e).
Proof. intros H. unfold pow2. now rewrite Zpower_Qpower. Qed.

Lemma pow2_succ (e : Z) : pow2 (e + 1) == 2 * pow2 e.
Proof. rewrite pow2_add. unfold pow2 at 2. simpl. ring. Qed.

(** [ilog2 a] is the integer part of the binary logarithm of [a > 0]. *)
Lemma ilog2_spec (a : Q) :
  0 < a -> pow2 (ilog2 a) <= a /\ a < pow2 (ilog2 a + 1).
Proof.
  intros Ha. destruct a as [p q].
  assert (Hp : (0 < p)%Z).
  { unfold Qlt in Ha. simpl in Ha. lia. }
  unfold ilog2. cbn [Qnum Qden].
  set (lp := Z.log2 p). set (lq := Z.log2 (Zpos q)).
  assert (Hlp : (0 <= lp)%Z) by apply Z.log2_nonneg.
  assert (Hlq : (0 <= lq)%Z) by apply Z.log2_nonneg.
  destruct (Z.log2_spec p Hp) as [Hp1 Hp2]. fold lp in Hp1, Hp2.
  destruct (Z.log2_spec (Zpos q) eq_refl) as [Hq1 Hq2]. fold lq in Hq1, Hq2.
  assert (Hq0 : 0 < inject_Z (Zpos q)) by reflexivity.
  assert (Ea : p # q == inject_Z p / inject_Z (Zpos q)) by apply Qmake_Qdiv.
  assert (HP1 : pow2 lp <= inject_Z p).
  { rewrite pow2_Z by exact Hlp. now rewrite <- Zle_Qle. }
  assert (HP2 : inject_Z p < pow2 (lp + 1)).
  { rewrite pow2_Z by lia. rewrite <- Zlt_Qlt. now rewrite <- Z.add_1_r in Hp2. }
  assert (HQ1 : pow2 lq <= inject_Z (Zpos q)).
  { rewrite pow2_Z by exact Hlq. now rewrite <- Zle_Qle. }
  assert (HQ2 : inject_Z (Zpos q) < pow2 (lq + 1)).
  { rewrite pow2_Z by lia. rewrite <- Zlt_Qlt. now rewrite <- Z.add_1_r in Hq2. }
  assert (Hup : p # q < pow2 (lp - lq + 1)).
  { rewrite Ea. apply Qlt_shift_div_r; [exact Hq0|].
    apply Qlt_le_trans with (pow2 (lp + 1)); [exact HP2|].
    replace (lp + 1)%Z with ((lp - lq + 1) + lq)%Z by ring.
    rewrite pow2_add.
    apply Qmult_le_l; [apply pow2_pos | exact HQ1]. }
  assert (Hlow : pow2 (lp - lq - 1) <= p # q).
  { rewrite Ea. apply Qle_shift_div_l; [exact Hq0|].
    apply Qle_trans with (pow2 lp); [|exact HP1].
    replace lp with ((lp - lq - 1) + (lq + 1))%Z at 2 by ring.
    rewrite pow2_add.
    apply Qmult_le_l; [apply pow2_pos | now apply Qlt_le_weak]. }
  destruct (Qle_bool (pow2 (lp - lq)) (p # q)) eqn:Hb.
  - apply Qle_bool_iff in Hb. split; assumption.
  - split; [exact Hlow|].
    replace (lp - lq - 1 + 1)%Z with (lp - lq)%Z by ring.
    apply Qnot_le_lt. intros H. apply Qle_bool_iff in H. congruence.
Qed.

(** What the exponent of the last place guarantees. *)
Lemma expo_min (a : Q) : (-1074 <= expo a)%Z.
Proof. unfold expo. lia. Qed.

Lemma expo_upper (a : Q) : 0 < a -> a < pow2 (expo a + 53).
Proof.
  intros Ha. destruct (ilog2_spec a Ha) as [_ H].
  apply Qlt_le_trans with (1 := H). apply pow2_le. unfold expo. lia.
Qed.

Lemma expo_lower (a : Q) :
  0 < a -> (-1074 < expo a)%Z -> pow2 (expo a + 52) <= a.
Proof.
  intros Ha He. destruct (ilog2_spec a Ha) as [H _].
  apply Qle_trans with (2 := H). apply pow2_le. unfold expo in *. lia.
Qed.

(** Rounding to the nearest integer. *)
Lemma rne_floor (t : Q) : (Qfloor t <= rne t <= Qfloor t + 1)%Z.
Proof.
  unfold rne. destruct (t - inject_Z (Qfloor t) ?= 1 # 2);
    try destruct (Z.even (Qfloor t)); lia.
Qed.

Lemma rne_Z (t : Q) (k : Z) : t == inject_Z k -> rne t = k.
Proof.
  intros H. unfold rne.
  rewrite (Qfloor_comp _ _ H), Qfloor_Z.
  assert (Hc : (t - inject_Z k ?= 1 # 2) = Lt).
  { apply Qlt_alt.
    setoid_replace (t - inject_Z k) with 0 by (rewrite H; ring).
    reflexivity. }
  now rewrite Hc.
Qed.

Lemma rne_mono (t u : Q) : t <= u -> (rne t <= rne u)%Z.
Proof.
  intros H. pose proof (Qfloor_resp_le _ _ H) as Hf.
  pose proof (rne_floor t) as Ht. pose proof (rne_floor u) as Hu.
  destruct (Z.eq_dec (Qfloor t) (Qfloor u)) as [E | NE]; [|lia].
  unfold rne. rewrite <- E.
  destruct (Qcompare_spec (t - inject_Z (Qfloor t)) (1 # 2)) as [Ht'|Ht'|Ht'];
    destruct (Qcompare_spec (u - inject_Z (Qfloor t)) (1 # 2)) as [Hu'|Hu'|Hu'];
    try destruct (Z.even (Qfloor t)); try lia; exfalso; lra.
Qed.

Lemma rne_le (t : Q) (k : Z) : t <= inject_Z k -> (rne t <= k)%Z.
Proof.
  intros H. rewrite <- (rne_Z (inject_Z k) k) by reflexivity.
  now apply rne_mono.
Qed.

Lemma rne_ge (t : Q) (k : Z) : inject_Z k <= t -> (k <= rne t)%Z.
Proof.
  intros H. rewrite <- (rne_Z (inject_Z k) k) at 1 by reflexivity.
  now apply rne_mono.
Qed.

Lemma Qabs_nonneg_eq (x : Q) : 0 <= x -> Qabs x = x.
Proof.
  destruct x as [p q]. unfold Qle, Qabs. simpl. intros H.
  f_equal. apply Z.abs_eq. lia.
Qed.

(** The value of [rnd] on a non-negative number. *)
Lemma rnd_nonneg_eq (x : Q) :
  0 <= x -> rnd x == inject_Z (rne (x / pow2 (expo x))) * pow2 (expo x).
Proof.
  intros H. unfold rnd. rewrite (Qabs_nonneg_eq x H). apply Qred_correct.
Qed.

Lemma div_pow2_le (x : Q) (k e : Z) :
  x <= inject_Z k * pow2 e -> x / pow2 e <= inject_Z k.
Proof.
  intros H. apply Qle_shift_div_r; [apply pow2_pos | exact H].
Qed.

Lemma div_pow2_ge (x : Q) (k e : Z) :
  inject_Z k * pow2 e <= x -> inject_Z k <= x / pow2 e.
Proof.
  intros H. apply Qle_shift_div_l; [apply pow2_pos | exact H].
Qed.

Lemma rnd_nonneg (x : Q) : 0 <= x -> 0 <= rnd x.
Proof.
  intros H. rewrite (rnd_nonneg_eq x H).
  apply Qmult_le_0_compat; [|apply Qlt_le_weak, pow2_pos].
  change 0 with (inject_Z 0). rewrite <- Zle_Qle.
  apply rne_ge. apply div_pow2_ge. simpl. rewrite Qmult_0_l. exact H.
Qed.

Lemma rnd_zero (x : Q) : x == 0 -> rnd x == 0.
Proof.
  intros H. unfold rnd. rewrite Qred_correct.
  rewrite (rne_Z _ 0); [ring|].
  unfold Qdiv. rewrite (Qmult_comp _ _ H _ _ (Qeq_refl _)). ring.
Qed.

(** Rounding is monotone on the non-negative numbers. *)
Lemma rnd_mono (x y : Q) : 0 <= x -> x <= y -> rnd x <= rnd y.
Proof.
  intros Hx Hxy.
  assert (Hy : 0 <= y) by lra.
  destruct (Qlt_le_dec 0 x) as [Hpos | Hzero].
  2:{ rewrite (rnd_zero x) by lra. now apply rnd_nonneg. }
  assert (Hypos : 0 < y) by lra.
  rewrite (rnd_nonneg_eq x Hx), (rnd_nonneg_eq y Hy).
  pose proof (expo_upper x Hpos) as Hxu.
  pose proof (expo_upper y Hypos) as Hyu.
  pose proof (expo_min x) as Hxm.
  destruct (Z.lt_trichotomy (expo x) (expo y)) as [Hlt | [Heq | Hgt]].
  - pose proof (expo_lower y Hypos ltac:(lia)) as Hyl.
    apply Qle_trans with (pow2 (expo x + 53)).
    + rewrite pow2_add, Qmult_comm.
      apply Qmult_le_l; [apply pow2_pos|].
      rewrite (pow2_Z 53) by lia. rewrite <- Zle_Qle.
      apply rne_le. apply div_pow2_le.
      rewrite <- (pow2_Z 53) by lia. rewrite <- pow2_add.
      rewrite Z.add_comm. now apply Qlt_le_weak.
    + apply Qle_trans with (pow2 (expo y + 52)); [apply pow2_le; lia|].
      rewrite pow2_add, (Qmult_comm (pow2 (expo y))).
      apply Qmult_le_r; [apply pow2_pos|].
      rewrite (pow2_Z 52) by lia. rewrite <- Zle_Qle.
      apply rne_ge. apply div_pow2_ge.
      rewrite <- (pow2_Z 52) by lia. rewrite <- pow2_add.
      now rewrite Z.add_comm.
  - rewrite Heq. apply Qmult_le_r; [apply pow2_pos|].
    rewrite <- Zle_Qle. apply rne_mono.
    apply Qmult_le_r; [apply Qinv_lt_0_compat, pow2_pos | exact Hxy].
  - exfalso.
    pose proof (expo_min y) as Hym.
    pose proof (expo_lower x Hpos ltac:(lia)) as Hxl.
    assert (H : pow2 (expo y + 53) <= pow2 (expo x + 52))
      by (apply pow2_le; lia).
    lra.
Qed.

(** Numbers of the form [m * 2^e] with the exponent of their last place
    not above [e] are left alone. *)
Lemma rnd_exact (x : Q) (m e : Z) :
  0 <= x -> x == inject_Z m * pow2 e -> (expo x <= e)%Z -> rnd x == x.
Proof.
  intros Hx Hm He. rewrite (rnd_nonneg_eq x Hx).
  remember (expo x) as ex eqn:Hex. clear Hex.
  assert (Hsplit : pow2 e == pow2 (e - ex) * pow2 ex).
  { rewrite <- pow2_add. now replace (e - ex + ex)%Z with e by ring. }
  assert (Hd : x / pow2 ex == inject_Z (m * 2 ^ (e - ex))).
  { rewrite inject_Z_mult, <- pow2_Z by lia. rewrite Hm, Hsplit.
    field. apply Qnot_eq_sym, Qlt_not_eq, pow2_pos. }
  rewrite (rne_Z _ _ Hd), inject_Z_mult, <- pow2_Z by lia.
  rewrite Hm, Hsplit. ring.
Qed.

(** Whole numbers below [2^53] are left alone. *)
Lemma rnd_int (k : Z) : (0 <= k <= 2 ^ 53)%Z -> rnd (inject_Z k) == inject_Z k.
Proof.
  intros [H0 H53].
  destruct (Z.eq_dec k 0) as [-> | Hk0]; [now apply rnd_zero|].
  destruct (Z.eq_dec k (2 ^ 53)) as [-> | Hk53].
  { apply Qeq_bool_iff. vm_compute. reflexivity. }
  assert (Hpos : 0 < inject_Z k).
  { change 0 with (inject_Z 0). rewrite <- Zlt_Qlt. lia. }
  apply (rnd_exact _ k 0).
  - now apply Qlt_le_weak.
  - unfold pow2. simpl. ring.
  - destruct (ilog2_spec _ Hpos) as [Hl _].
    assert (Hk : inject_Z k < pow2 53).
    { rewrite pow2_Z by lia. rewrite <- Zlt_Qlt. lia. }
    assert (ilog2 (inject_Z k) < 53)%Z by (apply pow2_lt_inv; lra).
    unfold expo. lia.
Qed.

(** A rounded value below [2^1024] is finite. *)
Lemma round_finite_below (x : Q) :
  0 <= rnd x -> rnd x < pow2 1024 -> round x = Finite (rnd x).
Proof.
  intros H0 Hlt. unfold round.
  destruct (Qle_bool (pow2 1024) (Qabs (rnd x))) eqn:Hb; [|reflexivity].
  apply Qle_bool_iff in Hb. rewrite (Qabs_nonneg_eq _ H0) in Hb.
  exfalso. lra.
Qed.

Lemma round_finite (x : Q) :
  0 <= rnd x -> rnd x <= inject_Z (2 ^ 53) -> round x = Finite (rnd x).
Proof.
  intros H0 H53. apply round_finite_below; [exact H0|].
  assert (Hbig : inject_Z (2 ^ 53) < pow2 1024) by reflexivity.
  lra.
Qed.

(** Rounding stays below a whole number up to [2^53], and above 0. *)
Lemma round_below (x : Q) (k : Z) :
  (0 <= k <= 2 ^ 53)%Z -> 0 <= x -> x <= inject_Z k ->
  exists r, round x = Finite r /\ 0 <= r /\ r <= inject_Z k.
Proof.
  intros Hk H0 Hx.
  assert (Hr0 : 0 <= rnd x) by now apply rnd_nonneg.
  assert (Hrk : rnd x <= inject_Z k).
  { rewrite <- (rnd_int k Hk). now apply rnd_mono. }
  assert (Hk53 : inject_Z k <= inject_Z (2 ^ 53)) by (rewrite <- Zle_Qle; lia).
  exists (rnd x). split; [apply round_finite; lra | split; assumption].
Qed.

(** Past [2^53] a term of at most 1 is absorbed. *)
Lemma round_absorbed (x : Q) :
  0 <= x -> x <= inject_Z (2 ^ 53) + 1 ->
  exists r, round x = Finite r /\ 0 <= r /\ r <= inject_Z (2 ^ 53).
Proof.
  intros H0 Hx.
  assert (Hr0 : 0 <= rnd x) by now apply rnd_nonneg.
  assert (Hcap : rnd (inject_Z (2 ^ 53) + 1) == inject_Z (2 ^ 53)).
  { apply Qeq_bool_iff. vm_compute. reflexivity. }
  assert (Hrk : rnd x <= inject_Z (2 ^ 53)).
  { rewrite <- Hcap. now apply rnd_mono. }
  exists (rnd x). split; [now apply round_finite | split; assumption].
Qed.

(** One addition of the running total: after [k] scores between 0 and 1
    the total is at most [min k 2^53]. *)
Lemma fadd_step (k : Z) (a : Q) (x : float) :
  (0 <= k)%Z -> 0 <= a -> a <= inject_Z (Z.min k (2 ^ 53)) ->
  in_unit_interval x ->
  exists r, fadd (Finite a) x = Finite r
            /\ 0 <= r /\ r <= inject_Z (Z.min (k + 1) (2 ^ 53)).
Proof.
  intros Hk Ha0 Hak Hx. destruct x as [q | |]; try contradiction.
  destruct Hx as [Hq0 Hq1]. cbn [fadd].
  destruct (Z.lt_ge_cases k (2 ^ 53)) as [Hlt | Hge].
  - rewrite Z.min_l in Hak by lia. rewrite Z.min_l by lia.
    apply round_below; [lia | lra |].
    rewrite inject_Z_plus. change (inject_Z 1) with 1. lra.
  - rewrite Z.min_r in Hak by lia. rewrite Z.min_r by lia.
    apply round_absorbed; lra.
Qed.

Lemma fold_fadd_bounds (l : list float) (k : Z) (a : Q) :
  (0 <= k)%Z -> 0 <= a -> a <= inject_Z (Z.min k (2 ^ 53)) ->
  Forall in_unit_interval l ->
  exists s, fold_left fadd l (Finite a) = Finite s
            /\ 0 <= s
            /\ s <= inject_Z (Z.min (k + Z.of_nat (List.length l)) (2 ^ 53)).
Proof.
  intros Hk Ha0 Hak Hl. revert k a Hk Ha0 Hak.
  induction Hl as [|x l Hx _ IH]; intros k a Hk Ha0 Hak.
  - exists a. simpl List.length. rewrite Z.add_0_r. auto.
  - destruct (fadd_step k a x Hk Ha0 Hak Hx) as (r & Hr & Hr0 & Hrk).
    cbn [fold_left]. rewrite Hr.
    destruct (IH (k + 1)%Z r ltac:(lia) Hr0 Hrk) as (s & Hs & Hs0 & Hsk).
    exists s. split; [exact Hs | split; [exact Hs0|]].
    replace (k + Z.of_nat (List.length (x :: l)))%Z
      with (k + 1 + Z.of_nat (List.length l))%Z
      by (simpl List.length; lia).
    exact Hsk.
Qed.

Lemma of_int_zero : of_int 0 = Finite 0.
Proof. vm_compute. reflexivity. Qed.

(** The total of [n] scores between 0 and 1 lies between 0 and
    [min n 2^53]. *)
Lemma sum_bounds (l : list float) :
  Forall in_unit_interval l ->
  exists s, sum l = Finite s
            /\ 0 <= s
            /\ s <= inject_Z (Z.min (Z.of_nat (List.length l)) (2 ^ 53)).
Proof.
  intros Hl. unfold sum. rewrite of_int_zero.
  apply (fold_fadd_bounds l 0 0); [lia | lra | | exact Hl].
  rewrite Z.min_l by lia. apply Qle_refl.
Qed.

(** Dividing a total by the count that bounds it gives a probability. *)
Lemma fdiv_count (s : Q) (n : Z) :
  (1 <= n)%Z -> 0 <= s -> s <= inject_Z (Z.min n (2 ^ 53)) ->
  in_unit_interval (fdiv (Finite s) (of_int n)).
Proof.
  intros Hn Hs0 Hsn. unfold of_int, round.
  destruct (Qle_bool (pow2 1024) (Qabs (rnd (inject_Z n)))); cbn [fdiv].
  { split; [apply Qle_refl | discriminate]. }
  assert (Hn0 : 0 <= inject_Z n).
  { change 0 with (inject_Z 0). rewrite <- Zle_Qle. lia. }
  assert (Hmin : (1 <= Z.min n (2 ^ 53) <= 2 ^ 53)%Z) by lia.
  assert (Hm1 : 1 <= inject_Z (Z.min n (2 ^ 53))).
  { change 1 with (inject_Z 1). rewrite <- Zle_Qle. lia. }
  assert (HN : inject_Z (Z.min n (2 ^ 53)) <= rnd (inject_Z n)).
  { rewrite <- (rnd_int (Z.min n (2 ^ 53))) by lia.
    apply rnd_mono; [lra | rewrite <- Zle_Qle; lia]. }
  set (N := rnd (inject_Z n)) in *.
  assert (HNpos : 0 < N) by lra.
  destruct (Qeq_bool N 0) eqn:Hz.
  { apply Qeq_bool_iff in Hz. exfalso. lra. }
  assert (Hq0 : 0 <= s / N).
  { apply Qle_shift_div_l; [exact HNpos | lra]. }
  assert (Hq1 : s / N <= 1).
  { apply Qle_shift_div_r; [exact HNpos | lra]. }
  destruct (round_below (s / N) 1 ltac:(lia) Hq0 Hq1) as (r & -> & Hr0 & Hr1).
  split; assumption.
Qed.

(** The mean that the method computes is a probability when the scores
    are. *)
Lemma average_bounds (x : float) (l : list float) :
  Forall in_unit_interval (x :: l) ->
  in_unit_interval (fdiv (sum (x :: l)) (len (x :: l))).
Proof.
  intros H. destruct (sum_bounds _ H) as (s & -> & Hs0 & Hsn).
  apply fdiv_count; [simpl List.length; lia | exact Hs0 | exact Hsn].
Qed.

(** The exponent of the last place of a number below [2^(e+53)]. *)
Lemma expo_le (x : Q) (e : Z) :
  0 < x -> x < pow2 (e + 53) -> (-1074 <= e)%Z -> (expo x <= e)%Z.
Proof.
  intros Hpos Hlt He. destruct (ilog2_spec x Hpos) as [Hl _].
  assert (ilog2 x < e + 53)%Z by (apply pow2_lt_inv; lra).
  unfold expo. lia.
Qed.

(** A non-negative binary64 value is left alone by rounding. *)
Lemma round_double (x c : Q) :
  x == c -> 0 <= c -> is_double c ->
  exists r, round x = Finite r /\ r == c.
Proof.
  intros Hxc Hc (m & e & Hm & Hm53 & He).
  assert (Hx0 : 0 <= x) by lra.
  assert (Hmq : inject_Z m < inject_Z (2 ^ 53)) by (rewrite <- Zlt_Qlt; lia).
  assert (Hlt : x < pow2 (e + 53)).
  { rewrite pow2_add, Hxc, Hm, (pow2_Z 53) by lia.
    rewrite (Qmult_comm (pow2 e)).
    apply Qmult_lt_compat_r; [apply pow2_pos | exact Hmq]. }
  assert (Hexact : rnd x == x).
  { destruct (Qlt_le_dec 0 x) as [Hpos | Hzero].
    - apply (rnd_exact x m e Hx0); [now rewrite Hxc|].
      apply expo_le; [exact Hpos | exact Hlt | lia].
    - rewrite (rnd_zero x) by lra. lra. }
  exists (rnd x). split; [|lra].
  apply round_finite_below; [lra|].
  assert (Htop : pow2 (e + 53) <= pow2 1024) by (apply pow2_le; lia).
  lra.
Qed.

Lemma of_int_one : of_int 1 = Finite 1.
Proof. vm_compute. reflexivity. Qed.

(** With one score the computed mean is that score. *)
Lemma average_single (c : Q) :
  0 <= c -> is_double c ->
  exists r, fdiv (sum [Finite c]) (len [Finite c]) = Finite r /\ r == c.
Proof.
  intros Hc Hd. unfold sum, len. simpl List.length.
  change (Z.of_nat 1) with 1%Z. rewrite of_int_zero, of_int_one.
  cbn [fold_left fadd].
  destruct (round_double (0 + c) c ltac:(ring) Hc Hd) as (r1 & -> & Hr1).
  cbn [fdiv]. change (Qeq_bool 1 0) with false. cbv iota.
  apply (round_double (r1 / 1) c); [|exact Hc | exact Hd].
  rewrite Hr1. field.
Qed.

(** The running total of the spec is the sum of the code. *)
Lemma running_total_fold (scores : list float) (total : float) :
  running_total total scores = fold_left fadd scores total.
Proof.
  revert total; induction scores as [|x l IH]; intros total; simpl;
    [reflexivity | apply IH].
Qed.

Lemma binary64_mean_eq (scores : list float) :
  binary64_mean scores = fdiv (sum scores) (len scores).
Proof.
  unfold binary64_mean, sum, len.
  now rewrite running_total_fold, of_int_zero.
Qed.

End Rounding.

(** ** What one call computes *)

Section Runs.

Variable ocr : EasyOCR.

Lemma detect_document_method_run (path : string) (o : Obj ocr)
  (r : pyresult (list string)) (out : string) (w : World ocr) :
  readtext_detail0 ocr (reader (self o)) path (world (env o)) = (r, out, w) ->
  ImageRecognitionService.detect_document ocr path o =
    (Returns
       match r with
       | Returns [] => ("", Some "No text detected in the image")
       | Returns (x :: l) => (join " " (x :: l), None)
       | Raises e => ("", Some ("Error processing image: " ++ str e))
       end,
     Build_Obj ocr (self o) (Build_Env ocr (stdout (env o) ++ out) w)).
Proof.
  intros H.
  unfold ImageRecognitionService.detect_document, try_except, bind,
    ImageRecognitionService.self_reader, ImageRecognitionService.outside,
    engine, ret.
  rewrite H. destruct r as [[|x l]|e]; reflexivity.
Qed.

Lemma detect_document_with_confidence_run (path : string) (o : Obj ocr)
  (r : pyresult (list Detection)) (out : string) (w : World ocr) :
  readtext_detail1 ocr (reader (self o)) path (world (env o)) = (r, out, w) ->
  detect_document_with_confidence ocr path o =
    (Returns
       match r with
       | Returns [] => ("", Finite 0, Some "No text detected in the image")
       | Returns (d :: ds) =>
           (join " " (map (fun '(_, text, _) => text) (d :: ds)),
            fdiv (sum (map (fun '(_, _, conf) => conf) (d :: ds)))
                 (len (map (fun '(_, _, conf) => conf) (d :: ds))),
            None)
       | Raises e =>
           ("", Finite 0, Some ("Error processing image: " ++ str e))
       end,
     Build_Obj ocr (self o) (Build_Env ocr (stdout (env o) ++ out) w)).
Proof.
  intros H.
  unfold detect_document_with_confidence, try_except, bind,
    ImageRecognitionService.self_reader, ImageRecognitionService.outside,
    engine, ret.
  rewrite H. destruct r as [[|d ds]|e]; reflexivity.
Qed.

Lemma is_supported_format_run (file_path : string) (o : Obj ocr) :
  is_supported_format ocr file_path o =
    (Returns (existsb (fun fmt => endswith (lower file_path) fmt)
                supported_formats), o).
Proof. reflexivity. Qed.

(** The module-level function once the engine has been constructed. *)
Lemma detect_document_run (path : string) (e : Env ocr)
  (rd : Reader ocr) (out1 : string) (w1 : World ocr)
  (r : pyresult (list string)) (out2 : string) (w2 : World ocr) :
  Reader_new ocr ["en"] (world e) = (Returns rd, out1, w1) ->
  readtext_detail0 ocr rd path w1 = (r, out2, w2) ->
  detect_document ocr path e =
    (Returns
       match r with
       | Returns [] =>
           (out1 ++ out2) ++ "No text detected in the image" ++ newline
       | Returns (x :: l) => join " " (x :: l)
       | Raises exc =>
           (out1 ++ out2) ++ ("Error processing image: " ++ str exc) ++ newline
       end,
     Build_Env ocr (stdout e) w2).
Proof.
  intros Hnew Hread.
  unfold detect_document, redirect_stdout, try_except, bind, engine, print,
    getvalue, ret.
  cbn [world stdout]. rewrite Hnew. cbn [world stdout]. rewrite Hread.
  destruct r as [[|x l]|exc]; reflexivity.
Qed.

(** The module-level function when the engine cannot be constructed. *)
Lemma detect_document_run_no_engine (path : string) (e : Env ocr)
  (exc : exn) (out : string) (w : World ocr) :
  Reader_new ocr ["en"] (world e) = (Raises exc, out, w) ->
  detect_document ocr path e = (Raises exc, Build_Env ocr (stdout e) w).
Proof.
  intros Hnew.
  unfold detect_document, redirect_stdout, try_except, bind, engine.
  cbn [world stdout]. now rewrite Hnew.
Qed.

End Runs.

(** ** The service methods on a page that the engine reads *)

(** C1. When the engine returns a non-empty list of recognised line strings
    and raises nothing, [ImageRecognitionService.detect_document] returns
    the tuple [(t, None)] where [t] is the lines joined with single spaces,
    in the order the engine returned them. *)
Theorem detect_document_joins_lines
  (ocr : EasyOCR) (o : Obj ocr) (path : string)
  (lines : list string) (out : string) (w : World ocr) :
  lines <> [] ->
  readtext_detail0 ocr (reader (self o)) path (world (env o))
    = (Returns lines, out, w) ->
  fst (ImageRecognitionService.detect_document ocr path o)
    = Returns (join " " lines, None).
Proof.
  intros Hne Hread.
  rewrite (detect_document_method_run ocr path o _ _ _ Hread).
  destruct lines as [|x l]; [contradiction | reflexivity].
Qed.

Lemma detect_document_joins_lines_witness :
  ["Hello"; "world"] <> [] /\
  fst (ImageRecognitionService.detect_document Samples.two_lines "page.png"
         (Samples.instance _ _ _ _))
    = Returns ("Hello world", None).
Proof.
  split; [discriminate|].
  apply (detect_document_joins_lines Samples.two_lines
           (Samples.instance _ _ _ _) "page.png" ["Hello"; "world"] "" 1);
    [discriminate | reflexivity].
Defined.

(** C2. When the engine returns no detected region and raises nothing,
    [ImageRecognitionService.detect_document] returns exactly
    [("", "No text detected in the image")]. *)
Theorem detect_document_no_text
  (ocr : EasyOCR) (o : Obj ocr) (path : string)
  (out : string) (w : World ocr) :
  readtext_detail0 ocr (reader (self o)) path (world (env o))
    = (Returns [], out, w) ->
  fst (ImageRecognitionService.detect_document ocr path o)
    = Returns ("", Some "No text detected in the image").
Proof.
  intros Hread.
  now rewrite (detect_document_method_run ocr path o _ _ _ Hread).
Qed.

Lemma detect_document_no_text_witness :
  fst (ImageRecognitionService.detect_document Samples.blank_page "page.png"
         (Samples.instance _ _ _ _))
    = Returns ("", Some "No text detected in the image").
Proof.
  apply (detect_document_no_text Samples.blank_page
           (Samples.instance _ _ _ _) "page.png" "" 1).
  reflexivity.
Defined.

(** Scores 0.1, 0.2 and 0.3 give the confidence 0.20000000000000004,
    which is not their arithmetic mean. *)
Lemma rounded_mean_counterexample :
  fst (detect_document_with_confidence Samples.three_scores "page.png"
         (Samples.instance _ _ _ _))
    = Returns ("a b c",
               Finite (7205759403792795 # 36028797018963968), None)
  /\ ~ (7205759403792795 # 36028797018963968
        == arithmetic_mean [Samples.double_0_1; Samples.double_0_2;
                            Samples.double_0_3])%Q.
Proof.
  split.
  - vm_compute. reflexivity.
  - intros H. apply Qeq_bool_iff in H. vm_compute in H. discriminate H.
Qed.

(** C4, as the code has it.  When [detect_document_with_confidence] meets
    no exception: with no region the result is empty text, confidence 0.0
    and the no-text error; otherwise the text is the region texts joined
    with single spaces, the error is [None], and the confidence is the
    mean of the region scores as binary64 arithmetic gives it: the scores
    added from the left, each addition rounded, and the total divided by
    the number of regions and rounded. *)
Theorem detect_document_with_confidence_mean
  (ocr : EasyOCR) (o : Obj ocr) (path : string)
  (regions : list Detection) (out : string) (w : World ocr) :
  readtext_detail1 ocr (reader (self o)) path (world (env o))
    = (Returns regions, out, w) ->
  (regions = [] ->
   fst (detect_document_with_confidence ocr path o)
     = Returns ("", Finite 0, Some "No text detected in the image"))
  /\
  (regions <> [] ->
   fst (detect_document_with_confidence ocr path o)
     = Returns (join " " (map (fun d => snd (fst d)) regions),
                binary64_mean (map snd regions), None)).
Proof.
  intros Hread.
  rewrite (detect_document_with_confidence_run ocr path o _ _ _ Hread).
  split.
  - intros ->. reflexivity.
  - intros Hne. destruct regions as [|d ds]; [contradiction|].
    cbv beta iota. cbn [fst].
    replace (map (fun '(_, text, _) => text) (d :: ds))
      with (map (fun x : Detection => snd (fst x)) (d :: ds))
      by (apply map_ext; now intros [[b t] c]).
    replace (map (fun '(_, _, conf) => conf) (d :: ds))
      with (map (@snd (BBox * string) float) (d :: ds))
      by (apply map_ext; now intros [[b t] c]).
    now rewrite binary64_mean_eq.
Qed.

Lemma detect_document_with_confidence_mean_witness :
  fst (detect_document_with_confidence Samples.two_lines "page.png"
         (Samples.instance _ _ _ _))
    = Returns ("Hello world", Finite (3 # 4), None).
Proof.
  destruct (detect_document_with_confidence_mean Samples.two_lines
              (Samples.instance _ _ _ _) "page.png"
              [(Samples.box, "Hello", Finite (1 # 2));
               (Samples.box, "world", Finite 1)]
              "" 1 eq_refl) as [_ Hmean].
  rewrite Hmean by discriminate.
  vm_compute. reflexivity.
Defined.

(** C6. When every region score that the engine returns lies in [0,1], the
    confidence that [detect_document_with_confidence] returns (the average,
    or 0.0 when there is no region or the engine raised) lies in [0,1]. *)
Theorem confidence_in_unit_interval
  (ocr : EasyOCR) (o : Obj ocr) (path : string)
  (r : pyresult (list Detection)) (out : string) (w : World ocr) :
  readtext_detail1 ocr (reader (self o)) path (world (env o)) = (r, out, w) ->
  (forall regions, r = Returns regions ->
                   Forall (fun d => in_unit_interval (snd d)) regions) ->
  exists (text : string) (confidence : float) (error : option string),
    fst (detect_document_with_confidence ocr path o)
      = Returns (text, confidence, error)
    /\ in_unit_interval confidence.
Proof.
  intros Hread Hscores.
  rewrite (detect_document_with_confidence_run ocr path o _ _ _ Hread).
  assert (Hzero : in_unit_interval (Finite 0)) by (split; discriminate).
  destruct r as [[|d ds]|exc]; cbn [fst].
  - eauto.
  - do 3 eexists; split; [reflexivity|].
    cbn [map]. apply average_bounds.
    specialize (Hscores _ eq_refl).
    change (Forall in_unit_interval
              (map (fun '(_, _, conf) => conf) (d :: ds))).
    apply Forall_map. eapply Forall_impl; [|exact Hscores].
    now intros [[b t] c].
  - eauto.
Qed.

Lemma confidence_in_unit_interval_witness :
  exists (text : string) (confidence : float) (error : option string),
    fst (detect_document_with_confidence Samples.three_scores "page.png"
           (Samples.instance _ _ _ _))
      = Returns (text, confidence, error)
    /\ in_unit_interval confidence.
Proof.
  apply (confidence_in_unit_interval Samples.three_scores
           (Samples.instance _ _ _ _) "page.png"
           (Returns [(Samples.box, "a", Finite Samples.double_0_1);
                     (Samples.box, "b", Finite Samples.double_0_2);
                     (Samples.box, "c", Finite Samples.double_0_3)])
           "" 1 eq_refl).
  intros regions Heq. injection Heq as <-.
  repeat constructor; discriminate.
Defined.

(** ** Engine failures *)

Lemma contains_after (before part : string) : contains (before ++ part) part.
Proof.
  exists before, "". now rewrite append_empty_r.
Qed.

Lemma contains_inside (before part after : string) :
  contains (before ++ part ++ after) part.
Proof.
  now exists before, after.
Qed.

(** C3, as the code has it.  An exception that [readtext] raises is caught
    by both methods, which return empty text and the error
    ["Error processing image: " ++ message]; the module-level function
    catches it too and returns one string, the captured output, which
    contains the message.  An exception raised while the module-level
    function constructs its engine is not caught and reaches the caller. *)
Theorem engine_exceptions_handled (ocr : EasyOCR) :
  (forall (o : Obj ocr) (path : string) (exc : exn) out w,
      readtext_detail0 ocr (reader (self o)) path (world (env o))
        = (Raises exc, out, w) ->
      exists message : string,
        fst (ImageRecognitionService.detect_document ocr path o)
          = Returns ("", Some message)
        /\ message = "Error processing image: " ++ str exc
        /\ contains message (str exc))
  /\
  (forall (o : Obj ocr) (path : string) (exc : exn) out w,
      readtext_detail1 ocr (reader (self o)) path (world (env o))
        = (Raises exc, out, w) ->
      exists message : string,
        fst (detect_document_with_confidence ocr path o)
          = Returns ("", Finite 0, Some message)
        /\ message = "Error processing image: " ++ str exc
        /\ contains message (str exc))
  /\
  (forall (e : Env ocr) (path : string) rd out1 w1 (exc : exn) out2 w2,
      Reader_new ocr ["en"] (world e) = (Returns rd, out1, w1) ->
      readtext_detail0 ocr rd path w1 = (Raises exc, out2, w2) ->
      exists captured : string,
        fst (detect_document ocr path e) = Returns captured
        /\ captured
           = (out1 ++ out2) ++ ("Error processing image: " ++ str exc)
               ++ newline
        /\ contains captured (str exc))
  /\
  (forall (e : Env ocr) (path : string) (exc : exn) out w,
      Reader_new ocr ["en"] (world e) = (Raises exc, out, w) ->
      fst (detect_document ocr path e) = Raises exc).
Proof.
  split; [|split; [|split]].
  - intros o path exc out w Hread.
    rewrite (detect_document_method_run ocr path o _ _ _ Hread).
    eexists; split; [reflexivity|]. split; [reflexivity|].
    apply contains_after.
  - intros o path exc out w Hread.
    rewrite (detect_document_with_confidence_run ocr path o _ _ _ Hread).
    eexists; split; [reflexivity|]. split; [reflexivity|].
    apply contains_after.
  - intros e path rd out1 w1 exc out2 w2 Hnew Hread.
    rewrite (detect_document_run ocr path e _ _ _ _ _ _ Hnew Hread).
    eexists; split; [reflexivity|]. split; [reflexivity|].
    rewrite (append_assoc "Error processing image: ").
    rewrite <- (append_assoc (out1 ++ out2)).
    apply contains_inside.
  - intros e path exc out w Hnew.
    now rewrite (detect_document_run_no_engine ocr path e _ _ _ Hnew).
Qed.

Lemma engine_exceptions_handled_witness :
  fst (ImageRecognitionService.detect_document Samples.unreadable "page.png"
         (Samples.instance _ _ _ _))
    = Returns ("", Some "Error processing image: cannot open file")
  /\ fst (detect_document_with_confidence Samples.unreadable "page.png"
            (Samples.instance _ _ _ _))
     = Returns ("", Finite 0,
                Some "Error processing image: cannot open file")
  /\ fst (detect_document Samples.unreadable "page.png"
            (Samples.start _ _ _ _))
     = Returns ("Error processing image: cannot open file" ++ newline)
  /\ fst (detect_document Samples.no_model "page.png" (Samples.start _ _ _ _))
     = Raises (Exception "model download failed").
Proof.
  destruct (engine_exceptions_handled Samples.unreadable)
    as (Hmethod & Hconfidence & Hfunction & _).
  destruct (engine_exceptions_handled Samples.no_model)
    as (_ & _ & _ & Hconstruct).
  split; [|split; [|split]].
  - destruct (Hmethod (Samples.instance _ _ _ _) "page.png"
                (Exception "cannot open file") "" 1 eq_refl)
      as (message & Hrun & -> & _).
    exact Hrun.
  - destruct (Hconfidence (Samples.instance _ _ _ _) "page.png"
                (Exception "cannot open file") "" 1 eq_refl)
      as (message & Hrun & -> & _).
    exact Hrun.
  - destruct (Hfunction (Samples.start _ _ _ _) "page.png" tt "" 1
                (Exception "cannot open file") "" 2 eq_refl eq_refl)
      as (captured & Hrun & -> & _).
    exact Hrun.
  - exact (Hconstruct (Samples.start _ _ _ _) "page.png"
             (Exception "model download failed") "" 1 eq_refl).
Defined.

(** The module-level function does not return an empty text with an error:
    a failure while it constructs its engine reaches the caller, and a
    failure of [readtext] comes back as one non-empty string. *)
Lemma module_function_exceptions_counterexample :
  fst (detect_document Samples.no_model "page.png" (Samples.start _ _ _ _))
    = Raises (Exception "model download failed")
  /\ fst (detect_document Samples.unreadable "page.png"
            (Samples.start _ _ _ _))
     = Returns ("Error processing image: cannot open file" ++ newline).
Proof.
  split; reflexivity.
Qed.

(** ** The format check *)

(** C5. [is_supported_format] answers true exactly when the lower-cased
    path ends with one of [.jpg], [.jpeg], [.png], [.gif], [.bmp], [.webp],
    [.ico]; it is true on ["a.PNG"] and false on ["a.txt"]; the answer is a
    function of the path alone, and the call leaves the instance and the
    world as they were. *)
Theorem is_supported_format_suffix_check :
  (forall (ocr : EasyOCR) (o : Obj ocr) (path : string),
      exists b : bool,
        is_supported_format ocr path o = (Returns b, o)
        /\ (b = true <->
            exists fmt : string,
              In fmt [".jpg"; ".jpeg"; ".png"; ".gif"; ".bmp"; ".webp";
                      ".ico"]
              /\ has_suffix (lower path) fmt))
  /\
  (forall (ocr1 ocr2 : EasyOCR) (o1 : Obj ocr1) (o2 : Obj ocr2)
          (path : string),
      fst (is_supported_format ocr1 path o1)
        = fst (is_supported_format ocr2 path o2))
  /\
  (forall (ocr : EasyOCR) (o : Obj ocr),
      fst (is_supported_format ocr "a.PNG" o) = Returns true)
  /\
  (forall (ocr : EasyOCR) (o : Obj ocr),
      fst (is_supported_format ocr "a.txt" o) = Returns false).
Proof.
  split; [|split; [|split]]; try reflexivity.
  intros ocr o path. rewrite is_supported_format_run.
  eexists; split; [reflexivity|].
  rewrite existsb_exists. unfold supported_formats.
  split; intros [fmt [Hin Hend]]; exists fmt; split; trivial;
    now apply endswith_spec.
Qed.

(** ** Construction *)



(** ** The instance is never written *)

Lemma after_call_self (ocr : EasyOCR) (o : Obj ocr) (c : call) :
  self (after_call ocr o c) = self o.
Proof.
  destruct c as [path | path | file_path]; unfold after_call.
  - destruct (readtext_detail0 ocr (reader (self o)) path (world (env o)))
      as [[r out] w] eqn:Hread.
    now rewrite (detect_document_method_run ocr path o _ _ _ Hread).
  - destruct (readtext_detail1 ocr (reader (self o)) path (world (env o)))
      as [[r out] w] eqn:Hread.
    now rewrite (detect_document_with_confidence_run ocr path o _ _ _ Hread).
  - reflexivity.
Qed.

(** C10. After any sequence of calls to [detect_document],
    [detect_document_with_confidence] and [is_supported_format] on an
    instance, its fields [languages] and [reader] are what they were. *)
Theorem calls_preserve_instance
  (ocr : EasyOCR) (cs : list call) (o : Obj ocr) :
  languages (self (after_calls ocr cs o)) = languages (self o)
  /\ reader (self (after_calls ocr cs o)) = reader (self o).
Proof.
  assert (Hself : self (after_calls ocr cs o) = self o).
  { unfold after_calls. revert o.
    induction cs as [|c cs IH]; intros o; simpl; [reflexivity|].
    rewrite IH. apply after_call_self. }
  now rewrite Hself.
Qed.

(** ** Text and error *)

(** A single region with empty text makes [detect_document] and
    [detect_document_with_confidence] return an empty text and no error. *)
Lemma empty_text_without_error_counterexample :
  fst (ImageRecognitionService.detect_document Samples.one_empty_line
         "page.png" (Samples.instance _ _ _ _))
    = Returns ("", None)
  /\ fst (detect_document_with_confidence Samples.one_empty_line "page.png"
            (Samples.instance _ _ _ _))
     = Returns ("", Finite (1 # 4), None).
Proof.
  split; [reflexivity | vm_compute; reflexivity].
Qed.

(** C7, as the code has it.  Whatever the engine answers, the two methods
    never return both a non-empty text and an error; and exactly one of the
    two is returned unless the engine found a single region whose text is
    empty, in which case the text is empty and the error is [None]. *)
Theorem text_or_error_unless_single_empty_region
  (ocr : EasyOCR) (o : Obj ocr) (path : string) :
  (forall r out w,
      readtext_detail0 ocr (reader (self o)) path (world (env o))
        = (r, out, w) ->
      exists (text : string) (error : option string),
        fst (ImageRecognitionService.detect_document ocr path o)
          = Returns (text, error)
        /\ ~ (text <> "" /\ error <> None)
        /\ ((text <> "" \/ error <> None) <-> r <> Returns [""]))
  /\
  (forall r out w,
      readtext_detail1 ocr (reader (self o)) path (world (env o))
        = (r, out, w) ->
      exists (text : string) (confidence : float) (error : option string),
        fst (detect_document_with_confidence ocr path o)
          = Returns (text, confidence, error)
        /\ ~ (text <> "" /\ error <> None)
        /\ ((text <> "" \/ error <> None) <->
            ~ exists (b : BBox) (c : float), r = Returns [(b, "", c)])).
Proof.
  split; intros r out w Hread.
  - rewrite (detect_document_method_run ocr path o _ _ _ Hread).
    destruct r as [[|x l]|exc]; do 2 eexists;
      (split; [reflexivity|]); split.
    + intros [H _]; now apply H.
    + split; [discriminate | intros _; right; discriminate].
    + intros [_ H]; now apply H.
    + split.
      * intros [H|H] Heq; [|now apply H].
        injection Heq as -> ->. now apply H.
      * intros Hne. left. intros Hjoin.
        apply join_space_empty in Hjoin.
        destruct Hjoin as [Hjoin|Hjoin]; [discriminate|].
        apply Hne. now rewrite Hjoin.
    + intros [H _]; now apply H.
    + split; [discriminate | intros _; right; discriminate].
  - rewrite (detect_document_with_confidence_run ocr path o _ _ _ Hread).
    destruct r as [[|[[b t] c] ds]|exc]; do 3 eexists;
      (split; [reflexivity|]); split.
    + intros [H _]; now apply H.
    + split; [intros _ (b & c & Heq); discriminate
             | intros _; right; discriminate].
    + intros [_ H]; now apply H.
    + split.
      * intros [H|H] (b' & c' & Heq); [|now apply H].
        injection Heq as -> -> -> ->. now apply H.
      * intros Hne. left. intros Hjoin.
        apply join_space_empty in Hjoin.
        destruct Hjoin as [Hjoin|Hjoin]; [discriminate|].
        apply Hne. exists b, c.
        cbn [map] in Hjoin. injection Hjoin as -> Hds.
        apply map_eq_nil in Hds. now rewrite Hds.
    + intros [H _]; now apply H.
    + split; [intros _ (b & c & Heq); discriminate
             | intros _; right; discriminate].
Qed.

Lemma text_or_error_unless_single_empty_region_witness :
  (exists (text : string) (error : option string),
      fst (ImageRecognitionService.detect_document Samples.two_lines
             "page.png" (Samples.instance _ _ _ _))
        = Returns (text, error)
      /\ text <> "" /\ error = None)
  /\
  (exists (text : string) (confidence : float) (error : option string),
      fst (detect_document_with_confidence Samples.blank_page "page.png"
             (Samples.instance _ _ _ _))
        = Returns (text, confidence, error)
      /\ text = "" /\ error <> None).
Proof.
  split.
  - destruct (text_or_error_unless_single_empty_region Samples.two_lines
                (Samples.instance _ _ _ _) "page.png") as [Hmethod _].
    destruct (Hmethod (Returns ["Hello"; "world"]) "" 1 eq_refl)
      as (text & error & Hrun & _ & _).
    exists text, error. split; [exact Hrun|].
    injection Hrun as <- <-. split; [discriminate | reflexivity].
  - destruct (text_or_error_unless_single_empty_region Samples.blank_page
                (Samples.instance _ _ _ _) "page.png") as [_ Hconfidence].
    destruct (Hconfidence (Returns []) "" 1 eq_refl)
      as (text & confidence & error & Hrun & _ & _).
    exists text, confidence, error. split; [exact Hrun|].
    injection Hrun as <- _ <-. split; [reflexivity | discriminate].
Defined.

(** ** The module-level function *)

(** On a first run the returned string starts with what the engine wrote
    while it was constructed: it is not the message and a newline alone. *)
Lemma captured_output_counterexample :
  fst (detect_document Samples.first_run "page.png" (Samples.start _ _ _ _))
    = Returns ("Progress: 100.0% CompleteNo text detected in the image"
                 ++ newline)
  /\ fst (detect_document Samples.first_run "page.png"
            (Samples.start _ _ _ _))
     <> Returns ("No text detected in the image" ++ newline).
Proof.
  split; [reflexivity | discriminate].
Qed.

(** C8, as the code has it.  The module-level function returns one string.
    On success it is the recognised lines joined with single spaces.  When
    nothing is detected, or [readtext] raises, it is everything captured
    from [sys.stdout]: what the engine wrote while it was constructed and
    while it read the image, then the message and a newline; that string is
    never empty, and it is the message and a newline alone when the engine
    wrote nothing. *)
Theorem detect_document_returns_one_string
  (ocr : EasyOCR) (e : Env ocr) (path : string)
  (rd : Reader ocr) (out1 : string) (w1 : World ocr)
  (r : pyresult (list string)) (out2 : string) (w2 : World ocr) :
  Reader_new ocr ["en"] (world e) = (Returns rd, out1, w1) ->
  readtext_detail0 ocr rd path w1 = (r, out2, w2) ->
  exists returned : string,
    fst (detect_document ocr path e) = Returns returned
    /\ match r with
       | Returns [] =>
           returned
             = (out1 ++ out2) ++ "No text detected in the image" ++ newline
           /\ returned <> ""
           /\ (out1 = "" -> out2 = "" ->
               returned = "No text detected in the image" ++ newline)
       | Returns lines => returned = join " " lines
       | Raises exc =>
           returned
             = (out1 ++ out2) ++ ("Error processing image: " ++ str exc)
                 ++ newline
           /\ returned <> ""
           /\ (out1 = "" -> out2 = "" ->
               returned = ("Error processing image: " ++ str exc) ++ newline)
       end.
Proof.
  intros Hnew Hread.
  rewrite (detect_document_run ocr path e _ _ _ _ _ _ Hnew Hread).
  eexists; split; [reflexivity|].
  destruct r as [[|x l]|exc].
  - split; [reflexivity|]. split.
    + intros H. apply append_eq_empty in H. destruct H as [_ H].
      discriminate.
    + intros -> ->. reflexivity.
  - reflexivity.
  - split; [reflexivity|]. split.
    + intros H. apply append_eq_empty in H. destruct H as [_ H].
      simpl in H. discriminate.
    + intros -> ->. reflexivity.
Qed.

Lemma detect_document_returns_one_string_witness :
  fst (detect_document Samples.blank_page "page.png" (Samples.start _ _ _ _))
    = Returns ("No text detected in the image" ++ newline)
  /\ fst (detect_document Samples.two_lines "page.png"
            (Samples.start _ _ _ _))
     = Returns "Hello world".
Proof.
  split.
  - destruct (detect_document_returns_one_string Samples.blank_page
                (Samples.start _ _ _ _) "page.png" tt "" 1
                (Returns []) "" 2 eq_refl eq_refl)
      as (returned & Hrun & -> & _).
    exact Hrun.
  - destruct (detect_document_returns_one_string Samples.two_lines
                (Samples.start _ _ _ _) "page.png" tt "" 1
                (Returns ["Hello"; "world"]) "" 2 eq_refl eq_refl)
      as (returned & Hrun & ->).
    exact Hrun.
Defined.

(** * Further properties of the code *)

(** ** More on the format check *)

Lemma lower_ascii_idempotent (c : ascii) :
  lower_ascii (lower_ascii c) = lower_ascii c.
Proof.
  destruct c as [[] [] [] [] [] [] [] []]; reflexivity.
Qed.

Lemma lower_idempotent (s : string) : lower (lower s) = lower s.
Proof.
  induction s as [|c s IH]; simpl;
    [reflexivity | now rewrite lower_ascii_idempotent, IH].
Qed.

Lemma lower_append (s t : string) : lower (s ++ t) = lower s ++ lower t.
Proof.
  induction s as [|c s IH]; simpl; [reflexivity | now rewrite IH].
Qed.

Lemma length_lower (s : string) : String.length (lower s) = String.length s.
Proof.
  induction s as [|c s IH]; simpl; [reflexivity | now rewrite IH].
Qed.

(** Only a dot lower-cases to a dot. *)
Lemma lower_ascii_dot (c : ascii) : lower_ascii c = "."%char -> c = "."%char.
Proof.
  destruct c as [[] [] [] [] [] [] [] []]; vm_compute; intros H;
    solve [reflexivity | discriminate H].
Qed.

(** A split of the lower-cased string comes from a split of the string. *)
Lemma lower_split (s a b : string) :
  lower s = a ++ b ->
  exists s1 s2, s = s1 ++ s2 /\ lower s1 = a /\ lower s2 = b.
Proof.
  revert s; induction a as [|c a IH]; intros s H.
  - exists "", s. auto.
  - destruct s as [|c' s]; [discriminate|].
    simpl in H. injection H as Hc Hs.
    destruct (IH s Hs) as (s1 & s2 & -> & <- & <-).
    exists (String c' s1), s2. simpl. now rewrite Hc.
Qed.

Lemma substring_skip_more (pre s : string) (k m : nat) :
  substring (String.length pre + k) m (pre ++ s) = substring k m s.
Proof.
  induction pre as [|c pre IH]; simpl; [reflexivity | exact IH].
Qed.

(** A suffix no longer than [s] is looked for in [s] alone. *)
Lemma endswith_append (pre s suffix : string) :
  String.length suffix <= String.length s ->
  endswith (pre ++ s) suffix = endswith s suffix.
Proof.
  intros Hle. unfold endswith. rewrite length_append.
  replace (String.length suffix <=? String.length pre + String.length s)%nat
    with true by (symmetry; apply Nat.leb_le; lia).
  replace (String.length suffix <=? String.length s)%nat
    with true by (symmetry; now apply Nat.leb_le).
  replace (String.length pre + String.length s - String.length suffix)
    with (String.length pre + (String.length s - String.length suffix))
    by lia.
  now rewrite substring_skip_more.
Qed.

Lemma existsb_ext_in {A : Type} (f g : A -> bool) (l : list A) :
  (forall x, In x l -> f x = g x) -> existsb f l = existsb g l.
Proof.
  induction l as [|x l IH]; intros H; simpl; [reflexivity|].
  rewrite (H x (or_introl eq_refl)), IH; [reflexivity|].
  intros y Hy. apply H. now right.
Qed.

(** Every allowed suffix is a dot followed by three or four characters. *)
Lemma supported_formats_shape (fmt : string) :
  In fmt supported_formats ->
  exists ext, fmt = String "." ext
              /\ (String.length ext = 3 \/ String.length ext = 4).
Proof.
  unfold supported_formats. simpl.
  intros H; repeat (destruct H as [<- | H]; [eexists; split;
    [reflexivity | simpl; auto]|]); contradiction.
Qed.

(** X1. The answer of [is_supported_format] does not depend on letter
    case: lower-casing the path beforehand changes nothing. *)
Theorem is_supported_format_ignores_case
  (ocr : EasyOCR) (o : Obj ocr) (path : string) :
  fst (is_supported_format ocr (lower path) o)
    = fst (is_supported_format ocr path o).
Proof.
  rewrite !is_supported_format_run. cbn [fst].
  now rewrite lower_idempotent.
Qed.

(** X2. Only the last five characters of the path matter: in front of a
    name of five characters or more, anything may be put without changing
    the answer. *)
Theorem is_supported_format_last_five
  (ocr : EasyOCR) (o : Obj ocr) (front name : string) :
  5 <= String.length name ->
  fst (is_supported_format ocr (front ++ name) o)
    = fst (is_supported_format ocr name o).
Proof.
  intros Hlen. rewrite !is_supported_format_run. cbn [fst]. f_equal.
  apply existsb_ext_in. intros fmt Hin.
  rewrite lower_append. apply endswith_append.
  rewrite length_lower.
  destruct (supported_formats_shape fmt Hin) as (ext & -> & [H | H]);
    simpl; lia.
Qed.

Lemma is_supported_format_last_five_witness :
  5 <= String.length "a.PNG" /\
  fst (is_supported_format Samples.two_lines ("scans/2024/" ++ "a.PNG")
         (Samples.instance _ _ _ _))
    = fst (is_supported_format Samples.two_lines "a.PNG"
             (Samples.instance _ _ _ _)).
Proof.
  split; [simpl; lia|].
  apply (is_supported_format_last_five Samples.two_lines
           (Samples.instance _ _ _ _) "scans/2024/" "a.PNG").
  simpl; lia.
Defined.

(** X3. A supported path ends with a dot followed by three or four
    characters; so the empty path, a path without a dot and a path of
    fewer than four characters are not supported. *)
Theorem is_supported_format_needs_extension
  (ocr : EasyOCR) (o : Obj ocr) (path : string) :
  fst (is_supported_format ocr path o) = Returns true ->
  exists stem ext,
    path = stem ++ String "." ext
    /\ (String.length ext = 3 \/ String.length ext = 4).
Proof.
  rewrite is_supported_format_run. cbn [fst]. intros H.
  assert (Hany : existsb (fun fmt => endswith (lower path) fmt)
                   supported_formats = true)
    by (injection H as H'; exact H').
  apply existsb_exists in Hany. destruct Hany as (fmt & Hin & Hend).
  apply endswith_spec in Hend. destruct Hend as [pre Hpre].
  destruct (supported_formats_shape fmt Hin) as (ext & -> & Hlen).
  destruct (lower_split _ _ _ Hpre) as (s1 & s2 & -> & _ & Hs2).
  destruct s2 as [|c s2]; [discriminate|].
  simpl in Hs2. injection Hs2 as Hc Hext.
  apply lower_ascii_dot in Hc. subst c.
  exists s1, s2. split; [reflexivity|].
  now rewrite <- (length_lower s2), Hext.
Qed.

Lemma is_supported_format_needs_extension_witness :
  exists stem ext,
    "a.PNG" = stem ++ String "." ext
    /\ (String.length ext = 3 \/ String.length ext = 4).
Proof.
  apply (is_supported_format_needs_extension Samples.two_lines
           (Samples.instance _ _ _ _) "a.PNG").
  reflexivity.
Defined.

(** X4. A supported path stays supported when a directory, or anything
    else, is put in front of it. *)
Theorem is_supported_format_prefix
  (ocr : EasyOCR) (o : Obj ocr) (front path : string) :
  fst (is_supported_format ocr path o) = Returns true ->
  fst (is_supported_format ocr (front ++ path) o) = Returns true.
Proof.
  rewrite !is_supported_format_run. cbn [fst]. intros H.
  assert (Hany : existsb (fun fmt => endswith (lower path) fmt)
                   supported_formats = true)
    by (injection H as H'; exact H').
  f_equal.
  apply existsb_exists in Hany. destruct Hany as (fmt & Hin & Hend).
  apply existsb_exists. exists fmt. split; [exact Hin|].
  apply endswith_spec in Hend. destruct Hend as [pre Hpre].
  apply endswith_spec. exists (lower front ++ pre).
  now rewrite lower_append, Hpre, append_assoc.
Qed.

Lemma is_supported_format_prefix_witness :
  fst (is_supported_format Samples.two_lines ("inbox/" ++ ".ico")
         (Samples.instance _ _ _ _))
    = Returns true.
Proof.
  apply (is_supported_format_prefix Samples.two_lines
           (Samples.instance _ _ _ _) "inbox/" ".ico").
  reflexivity.
Defined.

(** ** More on the confidence *)

(** X7. With exactly one region, whose score is a non-negative binary64
    value, the confidence returned is that score: neither the sum nor the
    division rounds. *)
Theorem confidence_of_single_region
  (ocr : EasyOCR) (o : Obj ocr) (path : string)
  (b : BBox) (t : string) (score : Q) (out : string) (w : World ocr) :
  readtext_detail1 ocr (reader (self o)) path (world (env o))
    = (Returns [(b, t, Finite score)], out, w) ->
  (0 <= score)%Q ->
  is_double score ->
  exists confidence : Q,
    fst (detect_document_with_confidence ocr path o)
      = Returns (t, Finite confidence, None)
    /\ (confidence == score)%Q.
Proof.
  intros Hread Hpos Hdouble.
  rewrite (detect_document_with_confidence_run ocr path o _ _ _ Hread).
  cbn [fst map].
  destruct (average_single score Hpos Hdouble) as (r & -> & Hr).
  exists r. split; [reflexivity | exact Hr].
Qed.

Lemma confidence_of_single_region_witness :
  exists confidence : Q,
    fst (detect_document_with_confidence Samples.one_empty_line "page.png"
           (Samples.instance _ _ _ _))
      = Returns ("", Finite confidence, None)
    /\ (confidence == 1 # 4)%Q.
Proof.
  apply (confidence_of_single_region Samples.one_empty_line
           (Samples.instance _ _ _ _) "page.png" Samples.box "" (1 # 4)%Q
           "" 1 eq_refl).
  - discriminate.
  - exists 1%Z, (-2)%Z. split; [reflexivity | split; [reflexivity | lia]].
Defined.

(** ** More on text and errors *)

Lemma join_contains (sep : string) (l : list string) (x : string) :
  In x l -> contains (join sep l) x.
Proof.
  induction l as [|y l IH]; [contradiction|].
  destruct l as [|z l].
  - intros [-> | []]. exists "", "". now rewrite append_empty_r.
  - intros [-> | Hin].
    + exists "", (sep ++ join sep (z :: l)). reflexivity.
    + destruct (IH Hin) as (before & after & Heq).
      exists (y ++ sep ++ before), after.
      rewrite join_cons, Heq. now rewrite !append_assoc.
Qed.

(** X8. Every line that the engine recognised occurs in the text that
    [detect_document] returns: joining loses nothing. *)
Theorem detect_document_keeps_every_line
  (ocr : EasyOCR) (o : Obj ocr) (path : string)
  (lines : list string) (out : string) (w : World ocr) (line : string) :
  readtext_detail0 ocr (reader (self o)) path (world (env o))
    = (Returns lines, out, w) ->
  In line lines ->
  exists text : string,
    fst (ImageRecognitionService.detect_document ocr path o)
      = Returns (text, None)
    /\ contains text line.
Proof.
  intros Hread Hin.
  rewrite (detect_document_method_run ocr path o _ _ _ Hread).
  destruct lines as [|x l]; [contradiction|].
  eexists; split; [reflexivity|]. now apply join_contains.
Qed.

Lemma detect_document_keeps_every_line_witness :
  exists text : string,
    fst (ImageRecognitionService.detect_document Samples.two_lines
           "page.png" (Samples.instance _ _ _ _))
      = Returns (text, None)
    /\ contains text "world".
Proof.
  apply (detect_document_keeps_every_line Samples.two_lines
           (Samples.instance _ _ _ _) "page.png" ["Hello"; "world"] "" 1
           "world" eq_refl).
  simpl; auto.
Defined.

(** X9. The two methods agree: when the [detail=0] answer of the engine is
    the text column of its [detail=1] answer (or both raise the same
    exception), [detect_document_with_confidence] returns the text and the
    error that [detect_document] returns. *)
Theorem methods_agree
  (ocr : EasyOCR) (o : Obj ocr) (path : string)
  (r1 : pyresult (list Detection)) (out1 out0 : string)
  (w1 w0 : World ocr) :
  readtext_detail1 ocr (reader (self o)) path (world (env o))
    = (r1, out1, w1) ->
  readtext_detail0 ocr (reader (self o)) path (world (env o))
    = (texts_of r1, out0, w0) ->
  exists (text : string) (confidence : float) (error : option string),
    fst (detect_document_with_confidence ocr path o)
      = Returns (text, confidence, error)
    /\ fst (ImageRecognitionService.detect_document ocr path o)
       = Returns (text, error).
Proof.
  intros Hread1 Hread0.
  rewrite (detect_document_with_confidence_run ocr path o _ _ _ Hread1).
  rewrite (detect_document_method_run ocr path o _ _ _ Hread0).
  destruct r1 as [[|[[b t] c] ds]|exc]; cbn [texts_of map fst snd].
  - do 3 eexists; split; reflexivity.
  - do 3 eexists; split; [reflexivity|].
    cbn [fst]. do 4 f_equal. apply map_ext. now intros [[b' t'] c'].
  - do 3 eexists; split; reflexivity.
Qed.

Lemma methods_agree_witness :
  exists (text : string) (confidence : float) (error : option string),
    fst (detect_document_with_confidence Samples.two_lines "page.png"
           (Samples.instance _ _ _ _))
      = Returns (text, confidence, error)
    /\ fst (ImageRecognitionService.detect_document Samples.two_lines
              "page.png" (Samples.instance _ _ _ _))
       = Returns (text, error).
Proof.
  apply (methods_agree Samples.two_lines (Samples.instance _ _ _ _)
           "page.png"
           (Returns [(Samples.box, "Hello", Finite (1 # 2));
                     (Samples.box, "world", Finite 1)])
           "" "" 1 1 eq_refl eq_refl).
Defined.

(** X10. The error that [detect_document] returns tells what happened: it
    is [None] exactly when the engine found a region, the no-text message
    exactly when it found none, and ["Error processing image: " ++ m]
    exactly when it raised an exception whose message is [m]. *)
Theorem error_tells_what_happened
  (ocr : EasyOCR) (o : Obj ocr) (path : string)
  (r : pyresult (list string)) (out : string) (w : World ocr) :
  readtext_detail0 ocr (reader (self o)) path (world (env o)) = (r, out, w) ->
  exists (text : string) (error : option string),
    fst (ImageRecognitionService.detect_document ocr path o)
      = Returns (text, error)
    /\ (error = None <-> exists x l, r = Returns (x :: l))
    /\ (error = Some "No text detected in the image" <-> r = Returns [])
    /\ (forall m,
           error = Some ("Error processing image: " ++ m)
           <-> exists exc, r = Raises exc /\ str exc = m).
Proof.
  intros Hread.
  rewrite (detect_document_method_run ocr path o _ _ _ Hread).
  destruct r as [[|x l]|exc]; do 2 eexists;
    (split; [reflexivity|]); repeat split;
    try discriminate; try (intros (? & ? & ?); discriminate);
    try (intros (? & ? & ?); discriminate).
  - intros _. eauto.
  - intros H. simpl in H. injection H as <-. eauto.
  - intros (exc' & Heq & <-). now injection Heq as <-.
Qed.

Lemma error_tells_what_happened_witness :
  exists (text : string) (error : option string),
    fst (ImageRecognitionService.detect_document Samples.unreadable
           "page.png" (Samples.instance _ _ _ _))
      = Returns (text, error)
    /\ error = Some ("Error processing image: " ++ "cannot open file").
Proof.
  destruct (error_tells_what_happened Samples.unreadable
              (Samples.instance _ _ _ _) "page.png"
              (Raises (Exception "cannot open file")) "" 1 eq_refl)
    as (text & error & Hrun & _ & _ & Hraised).
  exists text, error. split; [exact Hrun|].
  apply Hraised. exists (Exception "cannot open file"). now split.
Defined.

(** ** More on the module-level function *)

(** X12. The module-level function raises exactly the exceptions that the
    construction of its engine raises; once the engine exists, it always
    returns a string. *)
Theorem detect_document_raises_iff
  (ocr : EasyOCR) (path : string) (e : Env ocr) (exc : exn) :
  fst (detect_document ocr path e) = Raises exc
  <-> exists out w, Reader_new ocr ["en"] (world e) = (Raises exc, out, w).
Proof.
  destruct (Reader_new ocr ["en"] (world e)) as [[[rd | exc'] out1] w1]
    eqn:Hnew.
  - destruct (readtext_detail0 ocr rd path w1) as [[r out2] w2] eqn:Hread.
    rewrite (detect_document_run ocr path e _ _ _ _ _ _ Hnew Hread).
    split; [discriminate | intros (out & w & H); discriminate].
  - rewrite (detect_document_run_no_engine ocr path e _ _ _ Hnew).
    cbn [fst]. split.
    + intros H. injection H as ->. eauto.
    + intros (out & w & H). now injection H as ->.
Qed.

(** X13. The module-level function agrees with the class used with its
    default language.  Both leave the same world; a failed construction
    raises the same exception from both; a text returned by the method
    without error is the string the function returns; and an error message
    of the method, followed by a newline, ends the string the function
    returns. *)
Theorem function_agrees_with_class
  (ocr : EasyOCR) (path : string) (e : Env ocr) :
  world (snd (detect_document ocr path e))
    = world (snd (construct_and_detect ocr None path e))
  /\ match fst (construct_and_detect ocr None path e) with
     | Raises exc => fst (detect_document ocr path e) = Raises exc
     | Returns (text, None) =>
         fst (detect_document ocr path e) = Returns text
     | Returns (text, Some message) =>
         exists captured : string,
           fst (detect_document ocr path e) = Returns captured
           /\ has_suffix captured (message ++ newline)
     end.
Proof.
  unfold construct_and_detect, init, on_instance, bind, engine, ret.
  destruct (Reader_new ocr ["en"] (world e)) as [[[rd | exc] out1] w1]
    eqn:Hnew.
  - destruct (readtext_detail0 ocr rd path w1) as [[r out2] w2] eqn:Hread.
    rewrite (detect_document_run ocr path e _ _ _ _ _ _ Hnew Hread).
    rewrite (detect_document_method_run ocr path _ r out2 w2)
      by exact Hread.
    destruct r as [[|x l]|exc]; cbn; split; try reflexivity.
    + eexists; split; [reflexivity|]. now exists (out1 ++ out2).
    + eexists; split; [reflexivity|]. now exists (out1 ++ out2).
  - rewrite (detect_document_run_no_engine ocr path e _ _ _ Hnew).
    split; reflexivity.
Qed.

(** ** More on the instance *)

(** X14. The constructor raises only what the construction of the engine
    raised, and an instance that it returns holds the reader that the
    engine built for the languages of that same instance. *)
Theorem init_reader_for_languages
  (ocr : EasyOCR) (langs : option (list string)) (e : Env ocr) :
  match fst (init ocr langs e) with
  | Returns svc =>
      exists out w,
        Reader_new ocr (languages svc) (world e)
          = (Returns (reader svc), out, w)
        /\ snd (init ocr langs e) = Build_Env ocr (stdout e ++ out) w
  | Raises exc =>
      exists ls out w,
        Reader_new ocr ls (world e) = (Raises exc, out, w)
        /\ snd (init ocr langs e) = Build_Env ocr (stdout e ++ out) w
  end.
Proof.
  unfold init, bind, engine, ret.
  match goal with
  | |- context [Reader_new ocr ?ls (world e)] =>
      destruct (Reader_new ocr ls (world e)) as [[[rd | exc] out] w] eqn:Hnew
  end; cbn [fst snd languages reader]; eauto.
Qed.

Lemma after_call_stdout (ocr : EasyOCR) (o : Obj ocr) (c : call) :
  quiet_readtext ocr ->
  stdout (env (after_call ocr o c)) = stdout (env o).
Proof.
  intros [Hquiet0 Hquiet1].
  destruct c as [path | path | file_path]; unfold after_call.
  - pose proof (Hquiet0 (reader (self o)) path (world (env o))) as Hq.
    destruct (readtext_detail0 ocr (reader (self o)) path (world (env o)))
      as [[r out] w] eqn:Hread.
    rewrite (detect_document_method_run ocr path o _ _ _ Hread).
    cbn in *. subst out. apply append_empty_r.
  - pose proof (Hquiet1 (reader (self o)) path (world (env o))) as Hq.
    destruct (readtext_detail1 ocr (reader (self o)) path (world (env o)))
      as [[r out] w] eqn:Hread.
    rewrite (detect_document_with_confidence_run ocr path o _ _ _ Hread).
    cbn in *. subst out. apply append_empty_r.
  - reflexivity.
Qed.

(** X15. The methods print nothing themselves: with an engine that writes
    nothing while it reads an image, [sys.stdout] is unchanged after any
    sequence of calls, also when calls end in an error result. *)
Theorem service_never_prints
  (ocr : EasyOCR) (cs : list call) (o : Obj ocr) :
  quiet_readtext ocr ->
  stdout (env (after_calls ocr cs o)) = stdout (env o).
Proof.
  intros Hquiet. unfold after_calls. revert o.
  induction cs as [|c cs IH]; intros o; simpl; [reflexivity|].
  rewrite IH. now apply after_call_stdout.
Qed.

Lemma service_never_prints_witness :
  stdout (env (after_calls Samples.unreadable
                 [Call_detect_document "a.png";
                  Call_is_supported_format "a.png";
                  Call_detect_document_with_confidence "b.jpg"]
                 (Samples.instance _ _ _ _)))
    = "".
Proof.
  apply (service_never_prints Samples.unreadable
           [Call_detect_document "a.png";
            Call_is_supported_format "a.png";
            Call_detect_document_with_confidence "b.jpg"]
           (Samples.instance _ _ _ _)).
  split; reflexivity.
Defined.
